(** * Telegram mini-app catalogue server: model and verified properties

    A shallow embedding of [telegram_mini_app/app.py], [models.py] and
    [bot.py].  Python [str] values are Rocq strings holding their UTF-8
    encoding; the relational tables are lists of rows in insertion order;
    the upload directory is a finite map from file names to contents; the
    Flask session is a finite map carried by every request. *)

From Stdlib Require Import Strings.Ascii.
From stdpp Require Import base strings gmap list numbers pretty sorting.

Open Scope Z_scope.

(** ** Python string primitives used by the handlers *)

Module Py.

(** [str.strip()] removes the characters for which CPython's
    [Py_UNICODE_ISSPACE] holds.  They are listed here by their UTF-8
    encoding, one, two or three bytes long. *)
Definition is_space1 (a : ascii) : bool :=
  let n := N_of_ascii a in
  ((9 <=? n) && (n <=? 13) || (28 <=? n) && (n <=? 32))%N.

Definition is_space2 (a b : ascii) : bool :=
  let m := N_of_ascii a in
  let n := N_of_ascii b in
  ((m =? 194) && ((n =? 133) || (n =? 160)))%N.

Definition is_space3 (a b c : ascii) : bool :=
  let l := N_of_ascii a in
  let m := N_of_ascii b in
  let n := N_of_ascii c in
  ((l =? 225) && (m =? 154) && (n =? 128)
   || (l =? 226) && (m =? 128)
      && ((128 <=? n) && (n <=? 138) || (n =? 168) || (n =? 169) || (n =? 175))
   || (l =? 226) && (m =? 129) && (n =? 159)
   || (l =? 227) && (m =? 128) && (n =? 128))%N.

Fixpoint lstrip (s : string) : string :=
  match s with
  | String a s1 =>
      if is_space1 a then lstrip s1 else
      match s1 with
      | String b s2 =>
          if is_space2 a b then lstrip s2 else
          match s2 with
          | String c s3 => if is_space3 a b c then lstrip s3 else s
          | EmptyString => s
          end
      | EmptyString => s
      end
  | EmptyString => EmptyString
  end.

(** The same scan on the reversed string, so the byte patterns are read
    last byte first. *)
Fixpoint lstrip_rev (s : string) : string :=
  match s with
  | String a s1 =>
      if is_space1 a then lstrip_rev s1 else
      match s1 with
      | String b s2 =>
          if is_space2 b a then lstrip_rev s2 else
          match s2 with
          | String c s3 => if is_space3 c b a then lstrip_rev s3 else s
          | EmptyString => s
          end
      | EmptyString => s
      end
  | EmptyString => EmptyString
  end.

Definition rstrip (s : string) : string :=
  String.rev (lstrip_rev (String.rev s)).

Definition strip (s : string) : string := rstrip (lstrip s).

(** [s.rsplit('.', 1)]: one split at the last dot, or the whole string
    when it has none. *)
Fixpoint rsplit_dot (s : string) : option (string * string) :=
  match s with
  | EmptyString => None
  | String a s' =>
      match rsplit_dot s' with
      | Some (h, t) => Some (String a h, t)
      | None => if Ascii.eqb a "."%char then Some (EmptyString, s') else None
      end
  end.

Definition rsplit1 (s : string) : list string :=
  match rsplit_dot s with
  | Some (h, t) => [h; t]
  | None => [s]
  end.

(** Truth value of a [str]: non-empty. *)
Definition truthy (s : string) : bool := negb (bool_decide (s = "")).

End Py.

(** ** models.py *)

Module Category.
Record t : Type := mk { id : Z; name : string }.
End Category.

Module VideoContent.
Record t : Type := mk {
  id : Z;
  title : string;
  video_filename : string;
  analysis : option string;      (* nullable=True *)
  category_id : Z
}.
End VideoContent.

Global Instance Category_eq_dec : EqDecision Category.t.
Proof. solve_decision. Defined.

Global Instance VideoContent_eq_dec : EqDecision VideoContent.t.
Proof. solve_decision. Defined.

(** The two tables, rows in insertion order. *)
Record database : Type := mk_database {
  categories : list Category.t;
  videos : list VideoContent.t
}.

(** Server-side state: the database file and the upload directory.  The
    directory itself exists from the first request on
    ([ensure_upload_folder]); the map holds its entries. *)
Record state : Type := mk_state {
  db : database;
  uploads : gmap string string
}.

Definition initial_state : state :=
  {| db := {| categories := []; videos := [] |}; uploads := ∅ |}.

(** Row id handed out by SQLite for an [INTEGER PRIMARY KEY] column: one
    more than the largest id in the table, 1 for an empty table.  (The
    64-bit ceiling of row ids is not modelled.) *)
Definition next_rowid (ids : list Z) : Z := 1 + foldr Z.max 0 ids.

(** [Category.query.filter_by(name=name).first()] *)
Definition category_by_name (d : database) (n : string) : option Category.t :=
  List.find (λ c, bool_decide (Category.name c = n)) (categories d).

(** [Category.query.get(k)] *)
Definition category_get (d : database) (k : Z) : option Category.t :=
  List.find (λ c, bool_decide (Category.id c = k)) (categories d).

(** [VideoContent.query.get(k)] *)
Definition video_get (d : database) (k : Z) : option VideoContent.t :=
  List.find (λ v, bool_decide (VideoContent.id v = k)) (videos d).

(** [db.session.add(Category(name=name)); db.session.commit()] *)
Definition insert_category (d : database) (n : string) : database :=
  {| categories :=
       categories d ++
       [ {| Category.id := next_rowid (Category.id <$> categories d);
            Category.name := n |} ];
     videos := videos d |}.

(** [db.session.add(VideoContent(...)); db.session.commit()] *)
Definition insert_video (d : database)
    (title filename : string) (analysis : option string) (c : Category.t)
  : database :=
  {| categories := categories d;
     videos :=
       videos d ++
       [ {| VideoContent.id := next_rowid (VideoContent.id <$> videos d);
            VideoContent.title := title;
            VideoContent.video_filename := filename;
            VideoContent.analysis := analysis;
            VideoContent.category_id := Category.id c |} ] |}.

(** [ORDER BY name]: SQLite compares text byte-wise, which on UTF-8 strings
    is [String.le]. *)
Definition order_by_name (l : list Category.t) : list Category.t :=
  merge_sort (λ a b, String.le (Category.name a) (Category.name b)) l.

(** [ORDER BY id DESC] *)
Definition id_desc (a b : VideoContent.t) : Prop :=
  VideoContent.id b ≤ VideoContent.id a.

Global Instance id_desc_dec : RelDecision id_desc.
Proof. intros a b. unfold id_desc. apply _. Defined.

Definition order_by_id_desc (l : list VideoContent.t) : list VideoContent.t :=
  merge_sort id_desc l.

(** ** The upload directory *)

(** [(Path(app.config['UPLOAD_FOLDER']) / filename).exists()].  pathlib
    drops an empty segment, so joining the empty name gives the folder
    itself, which [ensure_upload_folder] created before the first request;
    any other name produced by the sanitizer is a plain entry of the
    folder. *)
Definition path_exists (up : gmap string string) (filename : string) : bool :=
  bool_decide (filename = "") || bool_decide (is_Some (up !! filename)).

(** The name tried at a given value of [counter] (lines 176-178). *)
Definition candidate (original_name : list string) (counter : N) : string :=
  let name_part := default "" (original_name !! 0%nat) in
  let ext := if decide (1 < length original_name)%nat
             then default "" (original_name !! 1%nat) else "" in
  if Py.truthy ext
  then name_part +:+ "_" +:+ pretty counter +:+ "." +:+ ext
  else name_part +:+ "_" +:+ pretty counter.

(** The [while save_path.exists()] loop of [admin_add_video].  [fuel] bounds
    the number of iterations; [None] means the bound was reached. *)
Fixpoint resolve_loop (fuel : nat) (up : gmap string string)
    (original_name : list string) (filename : string) (counter : N)
  : option string :=
  if path_exists up filename then
    match fuel with
    | O => None
    | S fuel' =>
        resolve_loop fuel' up original_name
          (candidate original_name counter) (counter + 1)%N
    end
  else Some filename.

(** ** Flask: sessions, requests, responses *)

(** The signed session cookie: a dictionary.  The only key this application
    uses is ["logged_in"], and the only value it stores there is [True]. *)
Abbreviation session := (gmap string bool).

(** Truth value of [session.get('logged_in')]. *)
Definition session_logged_in (s : session) : bool :=
  match s !! "logged_in" with
  | Some b => b
  | None => false
  end.

(** [werkzeug.datastructures.FileStorage]; its truth value is that of its
    file name. *)
Record FileStorage : Type := mk_file {
  filename : string;
  stream : string
}.

Record request : Type := mk_request {
  form : gmap string string;
  files : gmap string FileStorage;
  content_length : Z;
  url_root : string                 (* scheme and host, no trailing slash *)
}.

(** [os.environ] as far as [check_auth] reads it. *)
Record environ : Type := mk_environ {
  ADMIN_USERNAME : option string;
  ADMIN_PASSWORD : option string
}.

Inductive endpoint : Type :=
  | ep_admin_login
  | ep_admin_index
  | ep_mini_app.

Record video_details : Type := mk_details {
  d_id : Z;
  d_title : string;
  d_video_url : string;
  d_analysis : string
}.

Inductive response : Type :=
  | Redirect (target : endpoint)
  | RenderLogin (error : option string)
  | RenderAdmin (cats : list Category.t) (vids : list VideoContent.t)
  | RenderMiniApp
  | JsonCategories (data : list (Z * string))
  | JsonVideos (data : list (Z * string))
  | JsonVideo (data : video_details)
  | SendFile (content : string)
  | NotFound
  | RequestEntityTooLarge.

Global Instance endpoint_eq_dec : EqDecision endpoint.
Proof. solve_decision. Defined.

(** What a view function leaves behind: the response, the session cookie
    and the server state. *)
Record result : Type := mk_result {
  r_response : response;
  r_session : session;
  r_state : state
}.

Definition view : Type := session → request → state → result.

(** [app.config['MAX_CONTENT_LENGTH']]: the first access to [request.form]
    or [request.files] aborts with 413 when the body is longer. *)
Definition MAX_CONTENT_LENGTH : Z := 1024 * 1024 * 500.

Definition too_large (r : request) : bool :=
  bool_decide (MAX_CONTENT_LENGTH < content_length r).

Definition check_auth (env : environ) (username password : string) : bool :=
  bool_decide (username = default "admin" (ADMIN_USERNAME env))
  && bool_decide (password = default "admin" (ADMIN_PASSWORD env)).

Definition login_required (func : view) : view :=
  λ sess req st,
    if negb (session_logged_in sess)
    then mk_result (Redirect ep_admin_login) sess st
    else func sess req st.

Definition admin_login_post (env : environ) : view :=
  λ sess req st,
    if too_large req then mk_result RequestEntityTooLarge sess st else
    let username := default "" (form req !! "username") in
    let password := default "" (form req !! "password") in
    if check_auth env username password
    then mk_result (Redirect ep_admin_index) (<["logged_in" := true]> sess) st
    else mk_result (RenderLogin (Some "Неверный логин или пароль")) sess st.

Definition admin_login_get : view :=
  λ sess req st, mk_result (RenderLogin None) sess st.

Definition admin_logout : view :=
  λ sess req st,
    mk_result (Redirect ep_admin_login) (delete "logged_in" sess) st.

Definition admin_index : view :=
  login_required (λ sess req st,
    mk_result
      (RenderAdmin (order_by_name (categories (db st)))
                   (order_by_id_desc (videos (db st))))
      sess st).

Definition admin_add_category : view :=
  login_required (λ sess req st,
    if too_large req then mk_result RequestEntityTooLarge sess st else
    let name := Py.strip (default "" (form req !! "name")) in
    if negb (Py.truthy name)
    then mk_result (Redirect ep_admin_index) sess st
    else
      match category_by_name (db st) name with
      | None =>
          mk_result (Redirect ep_admin_index) sess
            {| db := insert_category (db st) name; uploads := uploads st |}
      | Some _ => mk_result (Redirect ep_admin_index) sess st
      end).

(** The name under which the upload is saved.  The loop leaves after at most
    [size up + 1] tests ([resolve_loop_fuel] below), so the bound given here
    is never reached and the [default] is never taken. *)
Definition resolve_filename (up : gmap string string) (filename : string)
  : string :=
  default filename
    (resolve_loop (S (size up)) up (Py.rsplit1 filename) filename 1%N).

(** ** The application, over the library functions it calls

    [secure_filename] is werkzeug's sanitizer, [py_int] is Python's [int] on
    a string ([None] for [ValueError]) and [url_quote] is the quoting
    [url_for] applies to a path segment.  Everything below holds whatever
    these three functions are. *)

Section App.

Variable secure_filename : string → string.
Variable py_int : string → option Z.
Variable url_quote : string → string.
Variable env : environ.

Definition file_truthy (f : option FileStorage) : bool :=
  match f with
  | Some f => Py.truthy (filename f)
  | None => false
  end.

Definition admin_add_video : view :=
  login_required (λ sess req st,
    if too_large req then mk_result RequestEntityTooLarge sess st else
    let title := Py.strip (default "" (form req !! "title")) in
    let analysis := Py.strip (default "" (form req !! "analysis")) in
    let category_id := form req !! "category_id" in
    let file := files req !! "video_file" in
    if negb (Py.truthy title) || negb (file_truthy file)
       || negb (Py.truthy (default "" category_id))
    then mk_result (Redirect ep_admin_index) sess st
    else
      match py_int (default "" category_id) with
      | None => mk_result (Redirect ep_admin_index) sess st
      | Some category_id_int =>
          match category_get (db st) category_id_int, file with
          | Some category, Some file =>
              let name := resolve_filename (uploads st)
                            (secure_filename (filename file)) in
              mk_result (Redirect ep_admin_index) sess
                {| db := insert_video (db st) title name (Some analysis)
                           category;
                   uploads := <[name := stream file]> (uploads st) |}
          | _, _ => mk_result (Redirect ep_admin_index) sess st
          end
      end).

(** [send_from_directory(upload_dir, filename)] *)
Definition uploaded_file (name : string) : view :=
  λ sess req st,
    match uploads st !! name with
    | Some content => mk_result (SendFile content) sess st
    | None => mk_result NotFound sess st
    end.

Definition api_categories : view :=
  λ sess req st,
    mk_result
      (JsonCategories
         ((λ c, (Category.id c, Category.name c))
            <$> order_by_name (categories (db st))))
      sess st.

Definition api_videos_by_category (category_id : Z) : view :=
  λ sess req st,
    match category_get (db st) category_id with
    | None => mk_result NotFound sess st
    | Some category =>
        let vids :=
          order_by_id_desc
            (filter (λ v, VideoContent.category_id v = Category.id category)
                    (videos (db st))) in
        mk_result
          (JsonVideos
             ((λ v, (VideoContent.id v, VideoContent.title v)) <$> vids))
          sess st
    end.

(** [url_for('uploaded_file', filename=..., _external=True)] *)
Definition url_for_uploaded_file (req : request) (name : string) : string :=
  url_root req +:+ "/uploads/" +:+ url_quote name.

Definition api_video_details (video_id : Z) : view :=
  λ sess req st,
    match video_get (db st) video_id with
    | None => mk_result NotFound sess st
    | Some video =>
        mk_result
          (JsonVideo
             {| d_id := VideoContent.id video;
                d_title := VideoContent.title video;
                d_video_url :=
                  url_for_uploaded_file req
                    (VideoContent.video_filename video);
                d_analysis :=
                  match VideoContent.analysis video with
                  | Some a => if Py.truthy a then a else ""
                  | None => ""
                  end |})
          sess st
    end.

Definition mini_app : view :=
  λ sess req st, mk_result RenderMiniApp sess st.

Definition index : view :=
  λ sess req st, mk_result (Redirect ep_mini_app) sess st.

(** The URL map: one constructor per rule and accepted method. *)
Inductive route : Type :=
  | GET_admin_login
  | POST_admin_login
  | GET_admin_logout
  | ANY_admin
  | POST_admin_add_category
  | POST_admin_add_video
  | GET_uploads (name : string)
  | GET_api_categories
  | GET_api_videos (category_id : Z)
  | GET_api_video (video_id : Z)
  | GET_mini_app
  | GET_index.

Definition dispatch (r : route) : view :=
  match r with
  | GET_admin_login => admin_login_get
  | POST_admin_login => admin_login_post env
  | GET_admin_logout => admin_logout
  | ANY_admin => admin_index
  | POST_admin_add_category => admin_add_category
  | POST_admin_add_video => admin_add_video
  | GET_uploads name => uploaded_file name
  | GET_api_categories => api_categories
  | GET_api_videos k => api_videos_by_category k
  | GET_api_video k => api_video_details k
  | GET_mini_app => mini_app
  | GET_index => index
  end.

(** Server states that arise from the empty installation by serving
    requests. *)
Inductive reachable : state → Prop :=
  | reachable_initial : reachable initial_state
  | reachable_step st r sess req :
      reachable st → reachable (r_state (dispatch r sess req st)).

End App.

(** ** bot.py *)

Module Bot.

(** An incoming [aiogram.types.Message], as far as the handlers read it. *)
Record Message : Type := mk_message {
  chat_id : Z;
  text : option string;
  web_app_data : option string     (* [message.web_app_data.data] *)
}.

Record InlineKeyboardButton : Type := mk_button {
  button_text : string;
  web_app_url : string
}.

(** What [message.answer(...)] sends: a message to the chat the update
    came from. *)
Record SendMessage : Type := mk_send {
  to_chat : Z;
  body : string;
  reply_markup : list (list InlineKeyboardButton)
}.

(** The bot process next to the web server: the handlers only append to
    the messages sent so far; the server state is carried along to state
    that they leave it alone. *)
Record world : Type := mk_world {
  server : state;
  sent : list SendMessage
}.

Definition answer (m : Message) (body : string)
    (markup : list (list InlineKeyboardButton)) (w : world) : world :=
  {| server := server w;
     sent := sent w ++ [ {| to_chat := chat_id m; body := body;
                            reply_markup := markup |} ] |}.

(** [s.rstrip('/')] *)
Fixpoint lstrip_slash (s : string) : string :=
  match s with
  | String a s' => if Ascii.eqb a "/"%char then lstrip_slash s' else s
  | EmptyString => EmptyString
  end.

Definition rstrip_slash (s : string) : string :=
  String.rev (lstrip_slash (String.rev s)).

Definition handle_start (url : string) (m : Message) (w : world) : world :=
  answer m "Привет! Нажмите кнопку ниже, чтобы открыть каталог контента."
    [ [ {| button_text := "Открыть каталог";
           web_app_url := rstrip_slash url +:+ "/mini-app" |} ] ]
    w.

Definition data_prefix : string := "Получены данные из мини‑приложения: ".

Definition handle_web_app_data (m : Message) (w : world) : world :=
  match web_app_data m with
  | Some data => answer m (data_prefix +:+ data) [] w
  | None => w                        (* filtered out by [F.web_app_data] *)
  end.

End Bot.

(** ** The library functions on ASCII input

    Executable versions of the three library functions, used to run the
    application on concrete requests.  They follow werkzeug and CPython on
    ASCII strings; on other input [secure_filename] drops every byte above
    127 (werkzeug first normalises to NFKD, which can leave an ASCII letter
    behind) and [int] rejects non-ASCII decimal digits (CPython accepts
    them). *)

Module Lib.

Definition is_safe (a : ascii) : bool :=        (* [A-Za-z0-9_.-] *)
  let n := N_of_ascii a in
  ((48 <=? n) && (n <=? 57) || (65 <=? n) && (n <=? 90)
   || (97 <=? n) && (n <=? 122)
   || (n =? 95) || (n =? 46) || (n =? 45))%N.

Fixpoint filter_string (p : ascii → bool) (s : string) : string :=
  match s with
  | String a s' =>
      if p a then String a (filter_string p s') else filter_string p s'
  | EmptyString => EmptyString
  end.

Fixpoint map_string (f : ascii → ascii) (s : string) : string :=
  match s with
  | String a s' => String (f a) (map_string f s')
  | EmptyString => EmptyString
  end.

(** ["_".join(s.split())] *)
Fixpoint join_words (started gap : bool) (s : string) : string :=
  match s with
  | String a s' =>
      if Py.is_space1 a then join_words started true s'
      else if started && gap
           then String "_" (String a (join_words true false s'))
           else String a (join_words true false s')
  | EmptyString => EmptyString
  end.

Fixpoint lstrip_chars (p : ascii → bool) (s : string) : string :=
  match s with
  | String a s' => if p a then lstrip_chars p s' else s
  | EmptyString => EmptyString
  end.

Definition strip_chars (p : ascii → bool) (s : string) : string :=
  String.rev (lstrip_chars p (String.rev (lstrip_chars p s))).

Definition dot_or_underscore (a : ascii) : bool :=
  Ascii.eqb a "."%char || Ascii.eqb a "_"%char.

(** [werkzeug.utils.secure_filename] on a POSIX host. *)
Definition secure_filename (name : string) : string :=
  let ascii_only := filter_string (λ a, (N_of_ascii a <? 128)%N) name in
  let no_sep :=
    map_string (λ a, if Ascii.eqb a "/"%char then " "%char else a)
      ascii_only in
  strip_chars dot_or_underscore
    (filter_string is_safe (join_words false false no_sep)).

(** Digits of a decimal literal, single underscores allowed between
    digits. *)
Fixpoint digits (acc : Z) (after_digit : bool) (s : string) : option Z :=
  match s with
  | String a s' =>
      if Ascii.eqb a "_"%char
      then if after_digit then digits acc false s' else None
      else
        match Ascii.is_nat a with
        | Some d => digits (10 * acc + Z.of_nat d) true s'
        | None => None
        end
  | EmptyString => if after_digit then Some acc else None
  end.

(** [int(s)] for a string [s]. *)
Definition int (s : string) : option Z :=
  match Py.strip s with
  | String a s' =>
      if Ascii.eqb a "-"%char then Z.opp <$> digits 0 false s'
      else if Ascii.eqb a "+"%char then digits 0 false s'
      else digits 0 false (String a s')
  | EmptyString => None
  end.

(** Quoting of a path segment leaves the characters of a sanitized name
    as they are. *)
Definition url_quote (s : string) : string := s.

End Lib.

(** ** The whole system: web server and bot *)

Inductive operation : Type :=
  | Web (r : route) (sess : session) (req : request)
  | BotStart (url : string) (m : Bot.Message)
  | BotWebAppData (m : Bot.Message).

Definition system_step (secure_filename : string → string)
    (py_int : string → option Z) (url_quote : string → string)
    (env : environ) (op : operation) (w : Bot.world) : Bot.world :=
  match op with
  | Web r sess req =>
      {| Bot.server :=
           r_state (dispatch secure_filename py_int url_quote env r sess req
                      (Bot.server w));
         Bot.sent := Bot.sent w |}
  | BotStart url m => Bot.handle_start url m w
  | BotWebAppData m => Bot.handle_web_app_data m w
  end.

(** ** Predicates used in the statements *)

(** The primary keys of models.py: ids are unique within a table. *)
Definition pk_unique (d : database) : Prop :=
  NoDup (Category.id <$> categories d)
  ∧ NoDup (VideoContent.id <$> videos d).

(** Every video references exactly one stored category, and category names
    are pairwise distinct. *)
Definition db_invariant (d : database) : Prop :=
  (∀ v, v ∈ videos d →
        exists! c, c ∈ categories d ∧ Category.id c = VideoContent.category_id v)
  ∧ NoDup (Category.name <$> categories d).

(** Rows were inserted with growing ids. *)
Definition id_lt (a b : VideoContent.t) : Prop :=
  VideoContent.id a < VideoContent.id b.

Definition ids_increasing (d : database) : Prop :=
  StronglySorted id_lt (videos d).

(** The session cookie never holds a false flag: the application stores
    [True] or removes the key. *)
Definition session_ok (s : session) : Prop := s !! "logged_in" ≠ Some false.





(** A dot occurs in the string. *)
Fixpoint has_dot (s : string) : bool :=
  match s with
  | String a s' => Ascii.eqb a "."%char || has_dot s'
  | EmptyString => false
  end.

(** The last character of the string, if any. *)
Fixpoint last_char (s : string) : option ascii :=
  match s with
  | String a EmptyString => Some a
  | String _ s' => last_char s'
  | EmptyString => None
  end.

Definition video_summary (v : VideoContent.t) : Z * string :=
  (VideoContent.id v, VideoContent.title v).

(** ** Sample data *)

Module Sample.

Definition env : environ :=
  {| ADMIN_USERNAME := Some "admin"; ADMIN_PASSWORD := Some "s3cret" |}.

Definition anonymous : session := ∅.

Definition admin : session := {[ "logged_in" := true ]}.

(** The database after the category "Finance" was created. *)
Definition finance : state :=
  {| db := {| categories := [ Category.mk 1 "Finance" ]; videos := [] |};
     uploads := ∅ |}.

Definition category_form (name : string) : request :=
  {| form := {[ "name" := name ]};
     files := ∅;
     content_length := 64;
     url_root := "https://example.com" |}.

Definition upload_form (title file_name content : string) : request :=
  {| form := {[ "title" := title; "analysis" := " quarterly figures ";
                "category_id" := "1" ]};
     files := {[ "video_file" := mk_file file_name content ]};
     content_length := 4096;
     url_root := "https://example.com" |}.

Definition get : request :=
  {| form := ∅; files := ∅; content_length := 0;
     url_root := "https://example.com" |}.

Definition serve (r : route) (sess : session) (req : request) (st : state)
  : result :=
  dispatch Lib.secure_filename Lib.int Lib.url_quote env r sess req st.

Definition add_video (req : request) (st : state) : state :=
  r_state (serve POST_admin_add_video admin req st).

(** Three uploads A, B, C into "Finance". *)
Definition three_videos : state :=
  add_video (upload_form "C" "c.mp4" "ccc")
    (add_video (upload_form "B" "b.mp4" "bbb")
       (add_video (upload_form "A" "a.mp4" "aaa") finance)).

Definition ping : Bot.Message :=
  {| Bot.chat_id := 42; Bot.text := None; Bot.web_app_data := Some "ping" |}.

Definition idle : Bot.world :=
  {| Bot.server := initial_state; Bot.sent := [] |}.

End Sample.

(** A run of [n] slashes. *)
Fixpoint slashes (n : nat) : string :=
  match n with
  | O => EmptyString
  | S n' => String "/" (slashes n')
  end.


(** ** Properties *)

Example strip_example : Py.strip "  Finance  " = "Finance".
Proof. reflexivity. Qed.

Example rsplit1_example :
  Py.rsplit1 "foo.tar.gz" = ["foo.tar"; "gz"] ∧ Py.rsplit1 "foo" = ["foo"].
Proof. split; reflexivity. Qed.

Example secure_filename_examples :
  Lib.secure_filename "My cool movie.mov" = "My_cool_movie.mov"
  ∧ Lib.secure_filename "../../../etc/passwd" = "etc_passwd"
  ∧ Lib.secure_filename "___" = "".
Proof. repeat split; reflexivity. Qed.

Example int_examples :
  Lib.int " 12 " = Some 12 ∧ Lib.int "-1_0" = Some (-10)
  ∧ Lib.int "" = None ∧ Lib.int "1__0" = None ∧ Lib.int "abc" = None.
Proof. repeat split; reflexivity. Qed.

Example candidate_examples :
  candidate (Py.rsplit1 "foo.mp4") 1 = "foo_1.mp4"
  ∧ candidate (Py.rsplit1 "foo") 12 = "foo_12".
Proof. split; reflexivity. Qed.

(** *** Strings *)

Lemma string_app_nil (t : string) : "" +:+ t = t.
Proof. reflexivity. Qed.

Lemma string_app_cons (a : ascii) (s t : string) :
  String a s +:+ t = String a (s +:+ t).
Proof. reflexivity. Qed.

Lemma string_app_length (s t : string) :
  String.length (s +:+ t) = (String.length s + String.length t)%nat.
Proof.
  induction s as [|a s IH]; [done|].
  rewrite string_app_cons. simpl. by rewrite IH.
Qed.

Lemma string_app_inj_r (s1 s2 t : string) : s1 +:+ t = s2 +:+ t → s1 = s2.
Proof.
  revert s2. induction s1 as [|a s1 IH]; intros [|b s2] H.
  - done.
  - apply (f_equal String.length) in H.
    rewrite string_app_nil, string_app_cons in H. simpl in H.
    rewrite string_app_length in H. lia.
  - apply (f_equal String.length) in H.
    rewrite string_app_nil, string_app_cons in H. simpl in H.
    rewrite string_app_length in H. lia.
  - rewrite !string_app_cons in H. injection H as -> H. f_equal. by apply IH.
Qed.

Lemma truthy_true (s : string) : Py.truthy s = true ↔ s ≠ "".
Proof.
  unfold Py.truthy. rewrite negb_true_iff, bool_decide_eq_false. done.
Qed.



(** *** Candidate names *)

Lemma candidate_nonempty (on : list string) (c : N) : candidate on c ≠ "".
Proof.
  unfold candidate. intros H. apply (f_equal String.length) in H.
  destruct (Py.truthy _); rewrite !string_app_length in H; simpl in H; lia.
Qed.

Lemma candidate_inj (on : list string) (c c' : N) :
  candidate on c = candidate on c' → c = c'.
Proof.
  unfold candidate. destruct (Py.truthy _); intros H.
  - apply (inj (String.app _)), (inj (String.app _)) in H.
    apply string_app_inj_r in H. by apply (inj pretty).
  - apply (inj (String.app _)), (inj (String.app _)) in H.
    by apply (inj pretty).
Qed.


(** *** The collision loop *)

Section Resolve.

Variable up : gmap string string.
Variable on : list string.

Lemma resolve_loop_free (fuel : nat) (f : string) (c : N) :
  path_exists up f = false → resolve_loop fuel up on f c = Some f.
Proof. intros H. destruct fuel; simpl; by rewrite H. Qed.

Lemma resolve_loop_taken (fuel : nat) (f : string) (c : N) :
  path_exists up f = true →
  resolve_loop (S fuel) up on f c
  = resolve_loop fuel up on (candidate on c) (c + 1)%N.
Proof. intros H. simpl. by rewrite H. Qed.

(** The names [candidate c], [candidate (c+1)], ... are tried in turn and
    the first free one is returned. *)
Lemma resolve_loop_first_free (j : nat) :
  ∀ (fuel : nat) (c : N),
    (j ≤ fuel)%nat →
    (∀ i, (i < j)%nat →
          path_exists up (candidate on (c + N.of_nat i)) = true) →
    path_exists up (candidate on (c + N.of_nat j)) = false →
    resolve_loop fuel up on (candidate on c) (c + 1)%N
    = Some (candidate on (c + N.of_nat j)).
Proof.
  induction j as [|j IH]; intros fuel c Hfuel Hbusy Hfree.
  - replace (c + N.of_nat 0)%N with c in * by lia.
    by apply resolve_loop_free.
  - destruct fuel as [|fuel]; [lia|].
    rewrite resolve_loop_taken.
    + replace (c + N.of_nat (S j))%N with (c + 1 + N.of_nat j)%N in * by lia.
      apply IH; [lia| |done].
      intros i Hi.
      replace (c + 1 + N.of_nat i)%N with (c + N.of_nat (S i))%N by lia.
      apply Hbusy. lia.
    + specialize (Hbusy 0%nat).
      replace (c + N.of_nat 0)%N with c in Hbusy by lia.
      apply Hbusy. lia.
Qed.

(** Pigeonhole: the taken candidates all lie in a set of [n] names, so
    one of the first [n + 1] is free. *)
Lemma free_candidate_exists (n : nat) :
  ∀ (X : gset string) (c : N),
    (size X ≤ n)%nat →
    (∀ c', (c ≤ c')%N → path_exists up (candidate on c') = true →
           candidate on c' ∈ X) →
    ∃ j, (j ≤ n)%nat
         ∧ (∀ i, (i < j)%nat →
                 path_exists up (candidate on (c + N.of_nat i)) = true)
         ∧ path_exists up (candidate on (c + N.of_nat j)) = false.
Proof.
  induction n as [|n IH]; intros X c Hsize HX.
  - exists 0%nat. split; [done|]. split; [intros i Hi; lia|].
    replace (c + N.of_nat 0)%N with c by lia.
    destruct (path_exists up (candidate on c)) eqn:E; [|done].
    apply HX in E; [|lia].
    assert (X = ∅) as -> by (apply leibniz_equiv, size_empty_inv; lia).
    set_solver.
  - destruct (path_exists up (candidate on c)) eqn:E.
    + destruct (IH (X ∖ {[ candidate on c ]}) (c + 1)%N) as (j & Hj & Hb & Hf).
      * assert (candidate on c ∈ X) as Hin by (apply HX; [lia|done]).
        rewrite size_difference by set_solver.
        rewrite size_singleton.
        assert (size X ≠ 0%nat); [|lia].
        apply size_non_empty_iff. set_solver.
      * intros c' Hc' Hex. apply elem_of_difference. split.
        { apply HX; [lia|done]. }
        rewrite not_elem_of_singleton. intros Heq.
        apply candidate_inj in Heq. lia.
      * exists (S j). split; [lia|]. split.
        { intros [|i] Hi.
          - replace (c + N.of_nat 0)%N with c by lia. done.
          - replace (c + N.of_nat (S i))%N with (c + 1 + N.of_nat i)%N by lia.
            apply Hb. lia. }
        replace (c + N.of_nat (S j))%N with (c + 1 + N.of_nat j)%N by lia.
        done.
    + exists 0%nat. split; [lia|]. split; [intros i Hi; lia|].
      replace (c + N.of_nat 0)%N with c by lia. done.
Qed.

Lemma path_exists_candidate_dom (c : N) :
  path_exists up (candidate on c) = true → candidate on c ∈ dom up.
Proof.
  unfold path_exists. intros H. apply orb_true_iff in H as [H|H].
  - apply bool_decide_eq_true in H. by apply candidate_nonempty in H.
  - apply bool_decide_eq_true in H. by apply elem_of_dom.
Qed.

End Resolve.

(** The loop leaves with a result whenever it is given more than
    [size up] rounds, and the result does not depend on how many. *)
Lemma resolve_outcome (up : gmap string string) (s : string) :
  ∃ r, (∀ fuel, (size up < fuel)%nat →
                resolve_loop fuel up (Py.rsplit1 s) s 1 = Some r)
       ∧ path_exists up r = false
       ∧ if path_exists up s
         then ∃ j, r = candidate (Py.rsplit1 s) (1 + N.of_nat j)
                   ∧ ∀ i, (i < j)%nat →
                          path_exists up
                            (candidate (Py.rsplit1 s) (1 + N.of_nat i)) = true
         else r = s.
Proof.
  destruct (path_exists up s) eqn:E.
  - destruct (free_candidate_exists up (Py.rsplit1 s) (size up) (dom up) 1%N)
      as (j & Hj & Hbusy & Hfree).
    { by rewrite size_dom. }
    { intros c' _. apply path_exists_candidate_dom. }
    exists (candidate (Py.rsplit1 s) (1 + N.of_nat j)).
    split; [|split; [done|by exists j]].
    intros [|fuel] Hfuel; [lia|].
    rewrite resolve_loop_taken by done.
    apply resolve_loop_first_free; [lia|done..].
  - exists s. split; [|done]. intros fuel _. by apply resolve_loop_free.
Qed.


Lemma resolve_filename_fresh (up : gmap string string) (s : string) :
  path_exists up (resolve_filename up s) = false.
Proof.
  destruct (resolve_outcome up s) as (r & Hr & Hfree & _).
  unfold resolve_filename. by rewrite (Hr (S (size up))) by lia.
Qed.



Lemma path_exists_false (up : gmap string string) (f : string) :
  path_exists up f = false ↔ f ≠ "" ∧ up !! f = None.
Proof.
  unfold path_exists. rewrite orb_false_iff, !bool_decide_eq_false.
  by rewrite <-eq_None_not_Some.
Qed.

(** *** Queries *)

Lemma find_decide_Some {A} (P : A → Prop) `{∀ x, Decision (P x)}
    (l : list A) (x : A) :
  List.find (λ x, bool_decide (P x)) l = Some x → x ∈ l ∧ P x.
Proof.
  intros Hf. apply find_some in Hf as [Hin HP].
  split; [by apply list_elem_of_In|by apply bool_decide_eq_true in HP].
Qed.

Lemma find_decide_None {A} (P : A → Prop) `{∀ x, Decision (P x)}
    (l : list A) :
  List.find (λ x, bool_decide (P x)) l = None ↔ ∀ x, x ∈ l → ¬ P x.
Proof.
  split.
  - intros Hf x Hx HP. apply list_elem_of_In in Hx.
    apply (find_none _ _ Hf) in Hx. by apply bool_decide_eq_false in Hx.
  - intros Hall. induction l as [|a l IH]; simpl; [done|].
    rewrite bool_decide_eq_false_2 by (apply Hall; left).
    apply IH. intros x Hx. apply Hall. by right.
Qed.

(** A new row id is larger than every id in the table. *)
Lemma next_rowid_fresh (ids : list Z) (x : Z) :
  x ∈ ids → x < next_rowid ids.
Proof.
  unfold next_rowid. induction 1 as [x l|x y l _ IH]; simpl; lia.
Qed.

(** *** The session gate *)

Lemma login_required_out (func : view) (sess : session) (req : request)
    (st : state) :
  session_logged_in sess = false →
  login_required func sess req st = mk_result (Redirect ep_admin_login) sess st.
Proof. intros H. unfold login_required. by rewrite H. Qed.

Lemma login_required_in (func : view) (sess : session) (req : request)
    (st : state) :
  session_logged_in sess = true →
  login_required func sess req st = func sess req st.
Proof. intros H. unfold login_required. by rewrite H. Qed.

(** C3: from a session whose admin flag is not set, [admin_add_category] and
    [admin_add_video] answer with a redirect to the login page and leave the
    categories, the videos and the upload folder (and the session) exactly
    as they were. *)
Theorem unauthenticated_mutation_redirects
    (secure_filename : string → string) (py_int : string → option Z)
    (sess : session) (req : request) (st : state) :
  session_logged_in sess = false →
  admin_add_category sess req st
    = mk_result (Redirect ep_admin_login) sess st
  ∧ admin_add_video secure_filename py_int sess req st
    = mk_result (Redirect ep_admin_login) sess st.
Proof.
  intros H. split; unfold admin_add_category, admin_add_video;
    by apply login_required_out.
Qed.

(** No view stores anything but [True] under the flag. *)
Lemma dispatch_session_ok (secure_filename : string → string)
    (py_int : string → option Z) (url_quote : string → string)
    (env : environ) (r : route) (sess : session) (req : request)
    (st : state) :
  session_ok sess →
  session_ok (r_session (dispatch secure_filename py_int url_quote env r
                           sess req st)).
Proof.
  unfold session_ok. intros Hok.
  destruct r; simpl;
    unfold admin_login_get, admin_login_post, admin_logout, admin_index,
      admin_add_category, admin_add_video, uploaded_file, api_categories,
      api_videos_by_category, api_video_details, mini_app, index,
      login_required;
    repeat case_match; simpl; try done.
  - by rewrite lookup_insert_eq.
  - by rewrite lookup_delete_eq.
Qed.

(** C9: from a session whose admin flag is not set, [admin_logout] answers
    with a redirect to the login page and leaves the session as it was,
    which is what the session gate would have done.  (The route carries no
    [login_required]; removing a key that is absent changes nothing.) *)
Theorem logout_without_flag (sess : session) (req : request) (st : state) :
  session_ok sess →
  session_logged_in sess = false →
  admin_logout sess req st = mk_result (Redirect ep_admin_login) sess st
  ∧ admin_logout sess req st = login_required admin_logout sess req st.
Proof.
  intros Hok Hout.
  assert (sess !! "logged_in" = None) as Hnone.
  { unfold session_ok, session_logged_in in *.
    destruct (sess !! "logged_in") as [[]|]; done. }
  assert (admin_logout sess req st
          = mk_result (Redirect ep_admin_login) sess st) as Heq.
  { unfold admin_logout. by rewrite delete_id. }
  split; [done|]. rewrite Heq. symmetry. by apply login_required_out.
Qed.

(** C8 (as amended): for a message carrying web-app data, the handler sends
    exactly one message, to the chat the data came from, whose text is the
    fixed prefix followed by the payload unchanged, with no keyboard; the
    server state is not touched. *)
Theorem web_app_data_reply (m : Bot.Message) (w : Bot.world) (data : string) :
  Bot.web_app_data m = Some data →
  Bot.handle_web_app_data m w
  = {| Bot.server := Bot.server w;
       Bot.sent :=
         Bot.sent w ++
         [ {| Bot.to_chat := Bot.chat_id m;
              Bot.body := Bot.data_prefix +:+ data;
              Bot.reply_markup := [] |} ] |}.
Proof. intros H. unfold Bot.handle_web_app_data. by rewrite H. Qed.

Lemma unauthenticated_mutation_redirects_witness :
  session_logged_in Sample.anonymous = false
  ∧ admin_add_category Sample.anonymous (Sample.category_form "Finance")
      initial_state
    = mk_result (Redirect ep_admin_login) Sample.anonymous initial_state
  ∧ admin_add_video Lib.secure_filename Lib.int Sample.anonymous
      (Sample.upload_form "Q1 Report" "report.mp4" "bytes") Sample.finance
    = mk_result (Redirect ep_admin_login) Sample.anonymous Sample.finance.
Proof.
  split; [reflexivity|].
  split.
  - apply (unauthenticated_mutation_redirects Lib.secure_filename Lib.int
             Sample.anonymous (Sample.category_form "Finance") initial_state).
    reflexivity.
  - apply (unauthenticated_mutation_redirects Lib.secure_filename Lib.int
             Sample.anonymous
             (Sample.upload_form "Q1 Report" "report.mp4" "bytes")
             Sample.finance).
    reflexivity.
Defined.

Lemma logout_without_flag_witness :
  session_ok Sample.anonymous
  ∧ session_logged_in Sample.anonymous = false
  ∧ admin_logout Sample.anonymous Sample.get Sample.finance
    = mk_result (Redirect ep_admin_login) Sample.anonymous Sample.finance.
Proof.
  split; [discriminate|]. split; [reflexivity|].
  apply (logout_without_flag Sample.anonymous Sample.get Sample.finance);
    [discriminate|reflexivity].
Defined.

Lemma web_app_data_reply_witness :
  Bot.web_app_data Sample.ping = Some "ping"
  ∧ Bot.handle_web_app_data Sample.ping Sample.idle
    = {| Bot.server := initial_state;
         Bot.sent :=
           [ {| Bot.to_chat := 42;
                Bot.body := Bot.data_prefix +:+ "ping";
                Bot.reply_markup := [] |} ] |}.
Proof.
  split; [reflexivity|].
  apply (web_app_data_reply Sample.ping Sample.idle "ping"). reflexivity.
Defined.

(** C8 as stated fails: the reply to the payload ["ping"] is not the text
    ["ping"] but the payload behind a fixed prefix. *)
Lemma web_app_data_reply_is_not_the_payload :
  Bot.body <$> Bot.sent (Bot.handle_web_app_data Sample.ping Sample.idle)
  = [ "Получены данные из мини‑приложения: ping" ]
  ∧ Bot.body <$> Bot.sent (Bot.handle_web_app_data Sample.ping Sample.idle)
    ≠ [ "ping" ].
Proof. split; [reflexivity|discriminate]. Qed.

(** *** Catalogue reads *)


(** *** Creating categories *)



(** *** Uploading a video *)




Example finance_scenario :
  let st := Sample.add_video
              (Sample.upload_form "Q1 Report" "report.mp4" "bytes")
              Sample.finance in
  r_response (Sample.serve GET_api_categories Sample.anonymous Sample.get st)
  = JsonCategories [ (1, "Finance") ]
  ∧ r_response (Sample.serve (GET_api_videos 1) Sample.anonymous Sample.get st)
    = JsonVideos [ (1, "Q1 Report") ]
  ∧ r_response (Sample.serve (GET_api_video 1) Sample.anonymous Sample.get st)
    = JsonVideo
        {| d_id := 1; d_title := "Q1 Report";
           d_video_url := "https://example.com/uploads/report.mp4";
           d_analysis := "quarterly figures" |}.
Proof. vm_compute. done. Qed.

(** *** Names without an extension *)

Lemma has_dot_app (s t : string) :
  has_dot (s +:+ t) = has_dot s || has_dot t.
Proof.
  induction s as [|a s IH]; [done|].
  rewrite string_app_cons. simpl. rewrite IH. by rewrite orb_assoc.
Qed.

Lemma has_dot_pretty_N_go (x : N) (s : string) :
  has_dot (pretty_N_go x s) = has_dot s.
Proof.
  revert s. induction (N.lt_wf_0 x) as [x _ IH]; intros s.
  destruct (decide (x = 0)%N) as [->|Hx]; [done|].
  rewrite pretty_N_go_step by lia.
  rewrite IH by (apply N.div_lt; lia). simpl.
  unfold pretty_N_char. by repeat case_match.
Qed.

Lemma has_dot_pretty (c : N) : has_dot (pretty c) = false.
Proof.
  unfold pretty, pretty_N. case_decide; [done|].
  by rewrite has_dot_pretty_N_go.
Qed.

Lemma rsplit_dot_no_dot (s : string) :
  has_dot s = false → Py.rsplit_dot s = None.
Proof.
  induction s as [|a s IH]; simpl; [done|].
  intros [Ha Hs]%orb_false_iff. by rewrite IH, Ha.
Qed.

Lemma last_char_dot (s : string) : last_char s = Some "."%char → has_dot s = true.
Proof.
  induction s as [|a s IH]; simpl; [done|].
  destruct s as [|b s].
  - intros [= ->]. done.
  - intros H. rewrite IH by done. by rewrite orb_true_r.
Qed.

(** C10: when the sanitized name has no dot, every name the collision loop
    tries is the name followed by [_] and the decimal counter, with no dot
    put in: neither the candidates nor the name finally chosen contain a
    dot, so none ends in one. *)
Theorem candidate_without_extension (up : gmap string string) (s : string)
    (c : N) :
  has_dot s = false →
  candidate (Py.rsplit1 s) c = s +:+ "_" +:+ pretty c
  ∧ has_dot (candidate (Py.rsplit1 s) c) = false
  ∧ last_char (candidate (Py.rsplit1 s) c) ≠ Some "."%char
  ∧ has_dot (resolve_filename up s) = false
  ∧ last_char (resolve_filename up s) ≠ Some "."%char.
Proof.
  intros Hs.
  assert (∀ c, candidate (Py.rsplit1 s) c = s +:+ "_" +:+ pretty c) as Hcand.
  { intros c'. unfold Py.rsplit1. by rewrite rsplit_dot_no_dot. }
  assert (∀ c, has_dot (candidate (Py.rsplit1 s) c) = false) as Hnodot.
  { intros c'. rewrite Hcand, !has_dot_app, Hs, has_dot_pretty. done. }
  assert (has_dot (resolve_filename up s) = false) as Hres.
  { destruct (resolve_outcome up s) as (r & Hr & _ & Hshape).
    unfold resolve_filename. rewrite (Hr (S (size up))) by lia. simpl.
    destruct (path_exists up s); [|by subst r].
    destruct Hshape as (j & -> & _). apply Hnodot. }
  split_and!; [done..| |done|].
  - intros H%last_char_dot. by rewrite Hnodot in H.
  - intros H%last_char_dot. by rewrite Hres in H.
Qed.

Lemma candidate_without_extension_witness :
  has_dot "README" = false
  ∧ candidate (Py.rsplit1 "README") 2 = "README" +:+ "_" +:+ pretty 2%N
  ∧ last_char (candidate (Py.rsplit1 "README") 2) ≠ Some "."%char.
Proof.
  split; [reflexivity|].
  destruct (candidate_without_extension ∅ "README" 2 eq_refl)
    as (Hc & _ & Hl & _).
  split; [exact Hc|exact Hl].
Defined.

Example candidate_without_extension_run :
  resolve_filename {[ "README" := "a"; "README_1" := "b" ]} "README"
  = "README_2".
Proof. vm_compute. done. Qed.

(** *** How a request changes the server state *)

(** A request leaves the state alone, or appends one category whose name was
    not taken, or appends one video of a stored category and stores its
    file under a name that was free. *)
Lemma dispatch_state_cases (secure_filename : string → string)
    (py_int : string → option Z) (url_quote : string → string)
    (env : environ) (r : route) (sess : session) (req : request)
    (st : state) :
  let st' := r_state (dispatch secure_filename py_int url_quote env r
                        sess req st) in
  st' = st
  ∨ (∃ n, category_by_name (db st) n = None
          ∧ st' = {| db := insert_category (db st) n;
                     uploads := uploads st |})
  ∨ (∃ title name an category content,
        category ∈ categories (db st)
        ∧ path_exists (uploads st) name = false
        ∧ st' = {| db := insert_video (db st) title name an category;
                   uploads := <[name := content]> (uploads st) |}).
Proof.
  destruct r; simpl; try (by left).
  - unfold admin_login_post. repeat case_match; by left.
  - unfold admin_index, login_required. case_match; by left.
  - unfold admin_add_category, login_required.
    repeat case_match; simpl; try (by left).
    right. left. eauto.
  - unfold admin_add_video, login_required.
    repeat case_match; simpl; try (by left).
    right. right. do 5 eexists. split_and!; [|apply resolve_filename_fresh|done].
    match goal with
    | H : category_get _ _ = Some _ |- _ =>
        by apply find_decide_Some in H as [? _]
    end.
  - unfold uploaded_file. case_match; by left.
  - unfold api_videos_by_category. case_match; by left.
  - unfold api_video_details. case_match; by left.
Qed.

(** *** The database invariant *)

Lemma NoDup_fmap_eq {A B} (f : A → B) (l : list A) (x y : A) :
  NoDup (f <$> l) → x ∈ l → y ∈ l → f x = f y → x = y.
Proof.
  induction l as [|a l IH]; [by intros _ ?%elem_of_nil|].
  rewrite fmap_cons, NoDup_cons. intros [Ha Hl] Hx Hy Hf.
  apply elem_of_cons in Hx as [->|Hx], Hy as [->|Hy]; [done| | |by apply IH].
  - destruct Ha. rewrite Hf. by apply list_elem_of_fmap_2.
  - destruct Ha. rewrite <-Hf. by apply list_elem_of_fmap_2.
Qed.

Lemma NoDup_snoc_fresh (ids : list Z) : NoDup ids → NoDup (ids ++ [next_rowid ids]).
Proof.
  intros H. apply NoDup_app. split; [done|]. split; [|apply NoDup_singleton].
  intros x Hx ->%list_elem_of_singleton.
  apply next_rowid_fresh in Hx. lia.
Qed.

Lemma insert_category_invariant (d : database) (n : string) :
  category_by_name d n = None →
  pk_unique d → db_invariant d →
  pk_unique (insert_category d n) ∧ db_invariant (insert_category d n).
Proof.
  intros Hn [Hc Hv] [Hrefs Hnames].
  pose proof (proj1 (find_decide_None (λ c, Category.name c = n) _) Hn)
    as Hfree.
  split; [split|split]; simpl.
  - rewrite fmap_app. by apply NoDup_snoc_fresh.
  - done.
  - intros v Hin. destruct (Hrefs v Hin) as (c & [Hcin Hcid] & Huniq).
    exists c. split; [split; [apply elem_of_app; by left|done]|].
    intros c' [Hc' Hid']. apply elem_of_app in Hc' as [Hc'|Hc'].
    + by apply Huniq.
    + apply list_elem_of_singleton in Hc'. subst c'. simpl in Hid'.
      apply (list_elem_of_fmap_2 Category.id), next_rowid_fresh in Hcin. lia.
  - rewrite fmap_app. apply NoDup_app. split; [done|].
    split; [|apply NoDup_singleton].
    intros x Hx ->%list_elem_of_singleton.
    apply list_elem_of_fmap in Hx as (c & Hcn & Hcin).
    by apply (Hfree c Hcin).
Qed.

Lemma insert_video_invariant (d : database) (title name : string)
    (an : option string) (category : Category.t) :
  category ∈ categories d →
  pk_unique d → db_invariant d →
  pk_unique (insert_video d title name an category)
  ∧ db_invariant (insert_video d title name an category).
Proof.
  intros Hcat [Hc Hv] [Hrefs Hnames].
  split; [split|split]; simpl.
  - done.
  - rewrite fmap_app. by apply NoDup_snoc_fresh.
  - intros v Hin. apply elem_of_app in Hin as [Hin|Hin]; [by apply Hrefs|].
    apply list_elem_of_singleton in Hin. subst v. simpl.
    exists category. split; [done|].
    intros c' [Hc' Hid']. symmetry.
    by apply (NoDup_fmap_eq Category.id (categories d)).
  - done.
Qed.

Lemma initial_state_invariant :
  pk_unique (db initial_state) ∧ db_invariant (db initial_state).
Proof.
  split; [split; apply NoDup_nil_2|split; [|apply NoDup_nil_2]].
  by intros v ?%elem_of_nil.
Qed.

(** C7: every operation of the system (each route of the web server, from
    any session and with any request, and both bot handlers) takes a
    database whose tables have unique primary keys, whose videos each
    reference exactly one stored category and whose category names are
    pairwise distinct to a database with the same three properties. *)
Theorem operations_preserve_invariant (secure_filename : string → string)
    (py_int : string → option Z) (url_quote : string → string)
    (env : environ) (op : operation) (w : Bot.world) :
  pk_unique (db (Bot.server w)) →
  db_invariant (db (Bot.server w)) →
  pk_unique (db (Bot.server
                   (system_step secure_filename py_int url_quote env op w)))
  ∧ db_invariant (db (Bot.server
                        (system_step secure_filename py_int url_quote env
                           op w))).
Proof.
  intros Hpk Hinv. destruct op as [r sess req|url m|m]; simpl.
  - destruct (dispatch_state_cases secure_filename py_int url_quote env
                r sess req (Bot.server w))
      as [->|[(n & Hn & ->)|(t & name & an & c & content & Hc & _ & ->)]];
      simpl.
    + done.
    + by apply insert_category_invariant.
    + by apply insert_video_invariant.
  - done.
  - unfold Bot.handle_web_app_data. by case_match.
Qed.

Lemma operations_preserve_invariant_witness :
  pk_unique (db Sample.finance)
  ∧ db_invariant (db Sample.finance)
  ∧ db_invariant
      (db (Sample.add_video
             (Sample.upload_form "Q1 Report" "report.mp4" "bytes")
             Sample.finance)).
Proof.
  assert (pk_unique (db Sample.finance)) as Hpk.
  { split; simpl; [apply NoDup_singleton|apply NoDup_nil_2]. }
  assert (db_invariant (db Sample.finance)) as Hinv.
  { split; simpl; [|apply NoDup_singleton]. by intros v ?%elem_of_nil. }
  split; [exact Hpk|]. split; [exact Hinv|].
  exact (proj2 (operations_preserve_invariant Lib.secure_filename Lib.int
                  Lib.url_quote Sample.env
                  (Web POST_admin_add_video Sample.admin
                     (Sample.upload_form "Q1 Report" "report.mp4" "bytes"))
                  {| Bot.server := Sample.finance; Bot.sent := [] |}
                  Hpk Hinv)).
Defined.

(** The invariant holds in every state the server can reach. *)
Lemma reachable_invariant (secure_filename : string → string)
    (py_int : string → option Z) (url_quote : string → string)
    (env : environ) (st : state) :
  reachable secure_filename py_int url_quote env st →
  pk_unique (db st) ∧ db_invariant (db st).
Proof.
  induction 1 as [|st r sess req _ [Hpk Hinv]].
  - apply initial_state_invariant.
  - destruct (dispatch_state_cases secure_filename py_int url_quote env
                r sess req st)
      as [->|[(n & Hn & ->)|(t & name & an & c & content & Hc & _ & ->)]];
      simpl.
    + done.
    + by apply insert_category_invariant.
    + by apply insert_video_invariant.
Qed.

(** *** Listing the videos of a category *)

Global Instance id_desc_total : Total id_desc.
Proof. intros a b. unfold id_desc. lia. Qed.

Global Instance id_desc_trans : Transitive id_desc.
Proof. intros a b c. unfold id_desc. lia. Qed.

Lemma StronglySorted_mono {A} (R1 R2 : relation A) (l : list A) :
  (∀ x y, R1 x y → R2 x y) → StronglySorted R1 l → StronglySorted R2 l.
Proof.
  intros HR. induction 1 as [|x l _ IH Hx]; constructor; [done|].
  eapply Forall_impl; [exact Hx|]. intros y. apply HR.
Qed.

Lemma StronglySorted_filter {A} (R : relation A) (P : A → Prop)
    `{∀ x, Decision (P x)} (l : list A) :
  StronglySorted R l → StronglySorted R (filter P l).
Proof.
  induction 1 as [|x l _ IH Hx]; [constructor|].
  rewrite filter_cons. case_decide; [|done].
  constructor; [done|]. rewrite Forall_forall in Hx |- *.
  intros y [_ Hy]%list_elem_of_filter. by apply Hx.
Qed.

Lemma StronglySorted_reverse {A} (R : relation A) (l : list A) :
  StronglySorted R l → StronglySorted (flip R) (reverse l).
Proof.
  induction 1 as [|x l _ IH Hx]; [constructor|].
  rewrite reverse_cons. apply StronglySorted_app.
  split_and!; [|done|repeat constructor].
  intros y z Hy ->%list_elem_of_singleton.
  rewrite elem_of_reverse in Hy. rewrite Forall_forall in Hx. by apply Hx.
Qed.

Lemma id_lt_same_id (l : list VideoContent.t) (x y : VideoContent.t) :
  StronglySorted id_lt l → x ∈ l → y ∈ l →
  VideoContent.id x = VideoContent.id y → x = y.
Proof.
  induction 1 as [|a l _ IH Ha]; [by intros ?%elem_of_nil|].
  rewrite Forall_forall in Ha. unfold id_lt in Ha.
  intros [->|Hx]%elem_of_cons [->|Hy]%elem_of_cons Hid; [done| | |by apply IH].
  - apply Ha in Hy. lia.
  - apply Ha in Hx. lia.
Qed.

(** On a table filled with growing ids, [ORDER BY id DESC] of a selection is
    the selection read backwards. *)
Lemma order_by_id_desc_newest_first (P : VideoContent.t → Prop)
    `{∀ v, Decision (P v)} (l : list VideoContent.t) :
  StronglySorted id_lt l →
  order_by_id_desc (filter P l) = reverse (filter P l).
Proof.
  intros Hl. unfold order_by_id_desc.
  apply (Sorted_unique_strong id_desc).
  - intros x y Hx Hy Hxy Hyx. unfold id_desc in *.
    rewrite merge_sort_Permutation in Hx. rewrite elem_of_reverse in Hy.
    apply list_elem_of_filter in Hx as [_ Hx], Hy as [_ Hy].
    apply (id_lt_same_id l); [done..|lia].
  - apply Sorted_merge_sort, _.
  - apply StronglySorted_Sorted.
    apply (StronglySorted_mono (flip id_lt)).
    { intros x y. unfold id_lt, id_desc. simpl. lia. }
    by apply StronglySorted_reverse, StronglySorted_filter.
  - by rewrite merge_sort_Permutation, reverse_Permutation.
Qed.

Lemma insert_video_ids_increasing (d : database) (title name : string)
    (an : option string) (category : Category.t) :
  ids_increasing d → ids_increasing (insert_video d title name an category).
Proof.
  unfold ids_increasing. intros Hd. simpl. apply StronglySorted_app.
  split_and!; [|done|repeat constructor].
  intros x y Hx ->%list_elem_of_singleton. unfold id_lt. simpl.
  by apply next_rowid_fresh, list_elem_of_fmap_2.
Qed.

(** Ids grow along the video table in every state the server can reach:
    the table lists the videos in the order they were created. *)
Lemma reachable_ids_increasing (secure_filename : string → string)
    (py_int : string → option Z) (url_quote : string → string)
    (env : environ) (st : state) :
  reachable secure_filename py_int url_quote env st → ids_increasing (db st).
Proof.
  induction 1 as [|st r sess req _ IH].
  - constructor.
  - destruct (dispatch_state_cases secure_filename py_int url_quote env
                r sess req st)
      as [->|[(n & Hn & ->)|(t & name & an & c & content & Hc & _ & ->)]];
      simpl.
    + done.
    + done.
    + by apply insert_video_ids_increasing.
Qed.

(** C5: in a state the server can reach, for a stored category,
    [api_videos_by_category] returns [id] and [title] of the videos of that
    category in the reverse of the order in which they were created (the
    video table holds them in creation order), which is by strictly
    descending id. *)
Theorem videos_listed_newest_first (secure_filename : string → string)
    (py_int : string → option Z) (url_quote : string → string)
    (env : environ) (category_id : Z) (sess : session) (req : request)
    (st : state) (category : Category.t) :
  reachable secure_filename py_int url_quote env st →
  category_get (db st) category_id = Some category →
  let created :=
    filter (λ v, VideoContent.category_id v = category_id) (videos (db st)) in
  r_response (api_videos_by_category category_id sess req st)
  = JsonVideos (video_summary <$> reverse created)
  ∧ StronglySorted Z.gt (VideoContent.id <$> reverse created).
Proof.
  intros Hreach Hcat created. subst created.
  apply reachable_ids_increasing in Hreach. unfold ids_increasing in Hreach.
  unfold api_videos_by_category. rewrite Hcat. simpl.
  apply find_decide_Some in Hcat as [_ ->].
  split.
  - f_equal. unfold video_summary.
    by rewrite order_by_id_desc_newest_first.
  - apply (StronglySorted_fmap _ (flip id_lt)).
    { intros x y. unfold id_lt. simpl. lia. }
    by apply StronglySorted_reverse, StronglySorted_filter.
Qed.

Lemma three_videos_reachable :
  reachable Lib.secure_filename Lib.int Lib.url_quote Sample.env
    Sample.three_videos.
Proof.
  unfold Sample.three_videos, Sample.add_video, Sample.serve.
  do 3 apply reachable_step.
  assert (r_state (Sample.serve POST_admin_add_category Sample.admin
                     (Sample.category_form "Finance") initial_state)
          = Sample.finance) as <- by (vm_compute; reflexivity).
  apply reachable_step, reachable_initial.
Qed.

Lemma videos_listed_newest_first_witness :
  reachable Lib.secure_filename Lib.int Lib.url_quote Sample.env
    Sample.three_videos
  ∧ category_get (db Sample.three_videos) 1 = Some (Category.mk 1 "Finance")
  ∧ r_response (api_videos_by_category 1 Sample.anonymous Sample.get
                  Sample.three_videos)
    = JsonVideos
        (video_summary
           <$> reverse (filter (λ v, VideoContent.category_id v = 1)
                          (videos (db Sample.three_videos)))).
Proof.
  split; [exact three_videos_reachable|]. split; [reflexivity|].
  exact (proj1 (videos_listed_newest_first Lib.secure_filename Lib.int
                  Lib.url_quote Sample.env 1 Sample.anonymous Sample.get
                  Sample.three_videos (Category.mk 1 "Finance")
                  three_videos_reachable eq_refl)).
Defined.

Example videos_listed_C_B_A :
  VideoContent.title <$> videos (db Sample.three_videos) = [ "A"; "B"; "C" ]
  ∧ r_response (api_videos_by_category 1 Sample.anonymous Sample.get
                  Sample.three_videos)
    = JsonVideos [ (3, "C"); (2, "B"); (1, "A") ].
Proof. vm_compute. done. Qed.

(** *** Uploading the same file name again and again *)








(** ** Further properties of the server *)

(** *** Logging in and out *)

(** X1: from a session without the flag and a request within the size
    limit, [admin_login] (POST) leaves a session with the flag exactly when
    the submitted pair equals the configured pair, a missing form field
    counting as the empty string and an unset variable as ["admin"]; it
    never touches the database or the upload folder. *)
Theorem login_grants_flag_iff_credentials (env : environ) (sess : session)
    (req : request) (st : state) :
  session_logged_in sess = false →
  too_large req = false →
  let r := admin_login_post env sess req st in
  (session_logged_in (r_session r) = true
   ↔ default "" (form req !! "username") = default "admin" (ADMIN_USERNAME env)
     ∧ default "" (form req !! "password")
       = default "admin" (ADMIN_PASSWORD env))
  ∧ r_state r = st.
Proof.
  intros Hout Hsize r. subst r. unfold admin_login_post, check_auth.
  rewrite Hsize.
  destruct (bool_decide (default "" (form req !! "username") = _)) eqn:Hu;
    destruct (bool_decide (default "" (form req !! "password") = _)) eqn:Hp;
    simpl; (split; [|done]).
  - apply bool_decide_eq_true in Hu, Hp. split; [done|]. intros _.
    unfold session_logged_in. by rewrite lookup_insert_eq.
  - apply bool_decide_eq_false in Hp. rewrite Hout. split; [done|].
    by intros [_ ?].
  - apply bool_decide_eq_false in Hu. rewrite Hout. split; [done|].
    by intros [? _].
  - apply bool_decide_eq_false in Hu. rewrite Hout. split; [done|].
    by intros [? _].
Qed.

Lemma login_grants_flag_iff_credentials_witness :
  session_logged_in Sample.anonymous = false
  ∧ too_large (Sample.category_form "x") = false
  ∧ (session_logged_in
       (r_session (admin_login_post Sample.env Sample.anonymous
                     (Sample.category_form "x") initial_state)) = true
     ↔ default "" (form (Sample.category_form "x") !! "username")
       = default "admin" (ADMIN_USERNAME Sample.env)
       ∧ default "" (form (Sample.category_form "x") !! "password")
         = default "admin" (ADMIN_PASSWORD Sample.env)).
Proof.
  split; [reflexivity|]. split; [reflexivity|].
  exact (proj1 (login_grants_flag_iff_credentials Sample.env Sample.anonymous
                  (Sample.category_form "x") initial_state
                  eq_refl eq_refl)).
Defined.

(** X2: no route but a POST to the login page with the right pair turns a
    session without the flag into one with it. *)
Theorem only_login_sets_flag (secure_filename : string → string)
    (py_int : string → option Z) (url_quote : string → string)
    (env : environ) (r : route) (sess : session) (req : request)
    (st : state) :
  session_logged_in sess = false →
  session_logged_in
    (r_session (dispatch secure_filename py_int url_quote env r sess req st))
  = true →
  r = POST_admin_login
  ∧ check_auth env (default "" (form req !! "username"))
      (default "" (form req !! "password")) = true.
Proof.
  intros Hout.
  destruct r; simpl;
    unfold admin_login_get, admin_logout, admin_index, admin_add_category,
      admin_add_video, uploaded_file, api_categories, api_videos_by_category,
      api_video_details, mini_app, index, login_required;
    rewrite ?Hout; simpl; try congruence.
  - unfold admin_login_post. repeat case_match; simpl; try congruence. done.
  - unfold session_logged_in. rewrite lookup_delete_eq. done.
  - case_match; simpl; congruence.
  - case_match; simpl; congruence.
  - case_match; simpl; congruence.
Qed.

(** X3: after [admin_logout], from whatever session, every view behind
    [login_required] answers with the redirect to the login page and runs
    nothing. *)
Theorem logout_closes_gate (func : view) (sess : session)
    (req req' : request) (st st' : state) :
  let out := admin_logout sess req st in
  r_response out = Redirect ep_admin_login
  ∧ r_state out = st
  ∧ login_required func (r_session out) req' st'
    = mk_result (Redirect ep_admin_login) (r_session out) st'.
Proof.
  simpl. split_and!; [done..|]. apply login_required_out.
  unfold session_logged_in. by rewrite lookup_delete_eq.
Qed.

Lemma only_login_sets_flag_witness :
  let req := mk_request {[ "username" := "admin"; "password" := "s3cret" ]}
               ∅ 32 "https://example.com" in
  session_logged_in Sample.anonymous = false
  ∧ session_logged_in
      (r_session (Sample.serve POST_admin_login Sample.anonymous req
                    initial_state)) = true
  ∧ check_auth Sample.env (default "" (form req !! "username"))
      (default "" (form req !! "password")) = true.
Proof.
  intros req. split; [reflexivity|]. split; [reflexivity|].
  exact (proj2 (only_login_sets_flag Lib.secure_filename Lib.int
                  Lib.url_quote Sample.env POST_admin_login
                  Sample.anonymous req initial_state eq_refl eq_refl)).
Defined.

(** *** Requests that are turned away *)



(** X5: a form longer than [MAX_CONTENT_LENGTH] is answered with 413 by the
    login page and, for a logged-in session, by both admin forms, before
    anything is read from it: session, database and upload folder are as
    before. *)
Theorem oversized_form_rejected (secure_filename : string → string)
    (py_int : string → option Z) (env : environ) (sess : session)
    (req : request) (st : state) :
  too_large req = true →
  admin_login_post env sess req st = mk_result RequestEntityTooLarge sess st
  ∧ (session_logged_in sess = true →
     admin_add_category sess req st
       = mk_result RequestEntityTooLarge sess st
     ∧ admin_add_video secure_filename py_int sess req st
       = mk_result RequestEntityTooLarge sess st).
Proof.
  intros Hbig. split.
  - unfold admin_login_post. by rewrite Hbig.
  - intros Hin. unfold admin_add_category, admin_add_video.
    rewrite !login_required_in by done. by rewrite Hbig.
Qed.

Lemma oversized_form_rejected_witness :
  let req := mk_request {[ "name" := "Finance" ]} ∅ (1024 * 1024 * 500 + 1)
               "https://example.com" in
  too_large req = true
  ∧ admin_login_post Sample.env Sample.anonymous req initial_state
    = mk_result RequestEntityTooLarge Sample.anonymous initial_state.
Proof.
  intros req. split; [reflexivity|].
  exact (proj1 (oversized_form_rejected Lib.secure_filename Lib.int
                  Sample.env Sample.anonymous req initial_state eq_refl)).
Defined.

(** *** What a request can change *)

(** X6: the server state changes only through a POST to one of the two
    admin forms, sent from a session with the flag and within the size
    limit; every other request leaves database and upload folder as they
    were. *)
Theorem only_admin_forms_write (secure_filename : string → string)
    (py_int : string → option Z) (url_quote : string → string)
    (env : environ) (r : route) (sess : session) (req : request)
    (st : state) :
  r_state (dispatch secure_filename py_int url_quote env r sess req st) ≠ st →
  (r = POST_admin_add_category ∨ r = POST_admin_add_video)
  ∧ session_logged_in sess = true
  ∧ too_large req = false.
Proof.
  destruct r; simpl;
    unfold admin_login_get, admin_login_post, admin_logout, admin_index,
      admin_add_category, admin_add_video, uploaded_file, api_categories,
      api_videos_by_category, api_video_details, mini_app, index,
      login_required;
    repeat case_match; simpl; intros Hne; try done.
  - split_and!; [by left| |done].
    by destruct (session_logged_in sess).
  - split_and!; [by right| |done].
    by destruct (session_logged_in sess).
Qed.

Lemma only_admin_forms_write_witness :
  r_state (Sample.serve POST_admin_add_category Sample.admin
             (Sample.category_form "Finance") initial_state)
  ≠ initial_state
  ∧ (POST_admin_add_category = POST_admin_add_category
     ∨ POST_admin_add_category = POST_admin_add_video)
  ∧ session_logged_in Sample.admin = true
  ∧ too_large (Sample.category_form "Finance") = false.
Proof.
  assert (r_state (Sample.serve POST_admin_add_category Sample.admin
                     (Sample.category_form "Finance") initial_state)
          ≠ initial_state) as Hne.
  { intros H. apply (f_equal (λ s, length (categories (db s)))) in H.
    vm_compute in H. discriminate H. }
  split; [exact Hne|].
  exact (only_admin_forms_write Lib.secure_filename Lib.int Lib.url_quote
           Sample.env POST_admin_add_category Sample.admin
           (Sample.category_form "Finance") initial_state Hne).
Defined.

(** X7: no request removes or rewrites a stored file: whatever the route,
    a file that is in the upload folder before the request is there
    afterwards with the same content. *)
Theorem stored_files_are_kept (secure_filename : string → string)
    (py_int : string → option Z) (url_quote : string → string)
    (env : environ) (r : route) (sess : session) (req : request)
    (st : state) (name content : string) :
  uploads st !! name = Some content →
  uploads (r_state (dispatch secure_filename py_int url_quote env r
                      sess req st)) !! name
  = Some content.
Proof.
  intros Hfile.
  destruct (dispatch_state_cases secure_filename py_int url_quote env
              r sess req st)
    as [->|[(n & _ & ->)|(t & new & an & c & data & _ & Hfree & ->)]];
    simpl; [done..|].
  apply path_exists_false in Hfree as [_ Hfree].
  rewrite lookup_insert_ne; [done|]. intros ->. congruence.
Qed.

Lemma stored_files_are_kept_witness :
  let st := Sample.add_video (Sample.upload_form "A" "foo.mp4" "aaa")
              Sample.finance in
  uploads st !! "foo.mp4" = Some "aaa"
  ∧ uploads (Sample.add_video (Sample.upload_form "B" "foo.mp4" "bbb") st)
    !! "foo.mp4" = Some "aaa".
Proof.
  intros st. split; [reflexivity|].
  exact (stored_files_are_kept Lib.secure_filename Lib.int Lib.url_quote
           Sample.env POST_admin_add_video Sample.admin
           (Sample.upload_form "B" "foo.mp4" "bbb") st "foo.mp4" "aaa"
           eq_refl).
Defined.

(** X8: the tables only grow at the end: after any request the category
    table and the video table start with the rows they held before, in the
    same order and unchanged, and together they hold at most one row
    more. *)
Theorem tables_are_append_only (secure_filename : string → string)
    (py_int : string → option Z) (url_quote : string → string)
    (env : environ) (r : route) (sess : session) (req : request)
    (st : state) :
  let st' := r_state (dispatch secure_filename py_int url_quote env r
                        sess req st) in
  categories (db st) `prefix_of` categories (db st')
  ∧ videos (db st) `prefix_of` videos (db st')
  ∧ (length (categories (db st')) + length (videos (db st'))
     ≤ S (length (categories (db st)) + length (videos (db st))))%nat.
Proof.
  intros st'. subst st'.
  destruct (dispatch_state_cases secure_filename py_int url_quote env
              r sess req st)
    as [->|[(n & _ & ->)|(t & new & an & c & data & _ & _ & ->)]]; simpl.
  - split_and!; [done..|lia].
  - split_and!; [by eexists|done|rewrite length_app; simpl; lia].
  - split_and!; [done|by eexists|rewrite length_app; simpl; lia].
Qed.

(** *** Invariants of reachable states *)

Lemma next_rowid_seqZ (n : nat) : next_rowid (seqZ 1 (Z.of_nat n)) = Z.of_nat n + 1.
Proof.
  unfold next_rowid. induction n as [|n IH]; [done|].
  replace (Z.of_nat (S n)) with (Z.of_nat n + 1) by lia.
  rewrite seqZ_app by lia. rewrite foldr_app. simpl.
  replace (seqZ (1 + Z.of_nat n) 1) with [1 + Z.of_nat n] by done.
  simpl.
  assert (∀ (l : list Z) a b, a ≤ b →
            foldr Z.max b l = Z.max b (foldr Z.max a l)) as Hmax.
  { induction l as [|x l IHl]; intros a b Hab; simpl; [lia|].
    rewrite (IHl a b Hab). lia. }
  rewrite (Hmax _ 0 (Z.max (1 + Z.of_nat n) 0)) by lia. lia.
Qed.

(** X9: in every state the server can reach, the ids of each table are
    1, 2, 3, ... in the order of creation; every category name and every
    video title is non-empty, and every video has its analysis column
    set. *)
Theorem reachable_rows_well_formed (secure_filename : string → string)
    (py_int : string → option Z) (url_quote : string → string)
    (env : environ) (st : state) :
  reachable secure_filename py_int url_quote env st →
  Category.id <$> categories (db st)
    = seqZ 1 (Z.of_nat (length (categories (db st))))
  ∧ VideoContent.id <$> videos (db st)
    = seqZ 1 (Z.of_nat (length (videos (db st))))
  ∧ (∀ c, c ∈ categories (db st) → Category.name c ≠ "")
  ∧ (∀ v, v ∈ videos (db st) →
          VideoContent.title v ≠ "" ∧ is_Some (VideoContent.analysis v)).
Proof.
  induction 1 as [|st r sess req _ (Hc & Hv & Hn & Ht)].
  - split_and!; [done..| |]; by intros ? ?%elem_of_nil.
  - destruct r; simpl;
      unfold admin_login_get, admin_login_post, admin_logout, admin_index,
        admin_add_category, admin_add_video, uploaded_file, api_categories,
        api_videos_by_category, api_video_details, mini_app, index,
        login_required;
      repeat case_match; simpl; try done.
    + (* a category was added *)
      split_and!; [|done| |done].
      * rewrite fmap_app, length_app, Hc. simpl.
        rewrite next_rowid_seqZ.
        replace (Z.of_nat (length (categories (db st)) + 1))
          with (Z.of_nat (length (categories (db st))) + 1) by lia.
        rewrite seqZ_app by lia. f_equal. simpl.
        by rewrite Z.add_comm.
      * intros c [Hin| ->%list_elem_of_singleton]%elem_of_app; [by apply Hn|].
        simpl. apply truthy_true.
        match goal with
        | H : negb (Py.truthy _) = false |- _ =>
            by apply negb_false_iff in H
        end.
    + (* a video was added *)
      split_and!; [done| |done|].
      * rewrite fmap_app, length_app, Hv. simpl.
        rewrite next_rowid_seqZ.
        replace (Z.of_nat (length (videos (db st)) + 1))
          with (Z.of_nat (length (videos (db st))) + 1) by lia.
        rewrite seqZ_app by lia. f_equal. simpl.
        by rewrite Z.add_comm.
      * intros v [Hin| ->%list_elem_of_singleton]%elem_of_app; [by apply Ht|].
        simpl. split; [|by eexists]. apply truthy_true.
        match goal with
        | H : _ || _ || _ = false |- _ =>
            apply orb_false_iff in H as [H _];
            apply orb_false_iff in H as [H _];
            by apply negb_false_iff in H
        end.
Qed.

Lemma reachable_rows_well_formed_witness :
  reachable Lib.secure_filename Lib.int Lib.url_quote Sample.env
    Sample.three_videos
  ∧ VideoContent.id <$> videos (db Sample.three_videos)
    = seqZ 1 (Z.of_nat (length (videos (db Sample.three_videos)))).
Proof.
  split; [exact three_videos_reachable|].
  destruct (reachable_rows_well_formed Lib.secure_filename Lib.int
              Lib.url_quote Sample.env Sample.three_videos
              three_videos_reachable) as (_ & Hv & _).
  exact Hv.
Defined.

(** X10: in every state the server can reach, each video row names a file
    that is in the upload folder, the name is not empty, and no two rows
    name the same file. *)
Theorem reachable_videos_have_files (secure_filename : string → string)
    (py_int : string → option Z) (url_quote : string → string)
    (env : environ) (st : state) :
  reachable secure_filename py_int url_quote env st →
  (∀ v, v ∈ videos (db st) →
        VideoContent.video_filename v ≠ ""
        ∧ is_Some (uploads st !! VideoContent.video_filename v))
  ∧ NoDup (VideoContent.video_filename <$> videos (db st)).
Proof.
  induction 1 as [|st r sess req _ [Hfiles Hnodup]].
  - split; [by intros ? ?%elem_of_nil|apply NoDup_nil_2].
  - destruct (dispatch_state_cases secure_filename py_int url_quote env
                r sess req st)
      as [->|[(n & _ & ->)|(t & new & an & c & data & _ & Hfree & ->)]];
      simpl; [done..|].
    apply path_exists_false in Hfree as [Hne Hfree]. split.
    + intros v [Hin| ->%list_elem_of_singleton]%elem_of_app.
      * destruct (Hfiles v Hin) as [Hv [x Hx]]. split; [done|].
        exists x. rewrite lookup_insert_ne; [done|]. intros ->. congruence.
      * simpl. split; [done|]. rewrite lookup_insert_eq. by eexists.
    + rewrite fmap_app. apply NoDup_app. split; [done|].
      split; [|apply NoDup_singleton].
      intros x Hx Hnew%list_elem_of_singleton. simpl in Hnew. subst x.
      apply list_elem_of_fmap in Hx as (v & Heq & Hv).
      destruct (Hfiles v Hv) as [_ [y Hy]]. congruence.
Qed.

Lemma reachable_videos_have_files_witness :
  reachable Lib.secure_filename Lib.int Lib.url_quote Sample.env
    Sample.three_videos
  ∧ NoDup (VideoContent.video_filename <$> videos (db Sample.three_videos)).
Proof.
  split; [exact three_videos_reachable|].
  exact (proj2 (reachable_videos_have_files Lib.secure_filename Lib.int
                  Lib.url_quote Sample.env Sample.three_videos
                  three_videos_reachable)).
Defined.

(** *** Creating a category twice *)

Lemma find_snoc_last {A} (p : A → bool) (l : list A) (x : A) :
  (∀ y, y ∈ l → p y = false) → p x = true → List.find p (l ++ [x]) = Some x.
Proof.
  intros Hl Hx. induction l as [|a l IH]; simpl.
  - by rewrite Hx.
  - rewrite (Hl a) by left. apply IH. intros y Hy. apply Hl. by right.
Qed.

(** X11: submitting the same category form twice has the effect of
    submitting it once: the second call finds the row the first one made
    and adds nothing. *)
Theorem add_category_idempotent (sess : session) (req : request) (st : state) :
  r_state (admin_add_category sess req
             (r_state (admin_add_category sess req st)))
  = r_state (admin_add_category sess req st).
Proof.
  unfold admin_add_category, login_required.
  destruct (negb (session_logged_in sess)); [done|].
  destruct (too_large req); [done|].
  set (name := Py.strip (default "" (form req !! "name"))).
  destruct (negb (Py.truthy name)); [done|].
  destruct (category_by_name (db st) name) as [c|] eqn:E; simpl.
  - by rewrite E.
  - unfold category_by_name at 1. simpl.
    rewrite find_snoc_last; [done| |by apply bool_decide_eq_true].
    intros y Hy. apply bool_decide_eq_false.
    by apply (proj1 (find_decide_None (λ c, Category.name c = name) _) E).
Qed.

(** *** Catalogue listings *)

Lemma order_by_name_sorted (l : list Category.t) :
  Sorted (λ a b, String.le (Category.name a) (Category.name b))
    (order_by_name l)
  ∧ order_by_name l ≡ₚ l.
Proof.
  split; [|apply merge_sort_Permutation].
  apply Sorted_merge_sort. intros a b. apply (total String.le).
Qed.

(** X12: [api_categories] returns [id] and [name] of every stored category
    exactly once, in ascending order of name, for any session and request,
    and writes nothing. *)
Theorem categories_listed_by_name (sess : session) (req : request)
    (st : state) :
  ∃ cs, api_categories sess req st
        = mk_result
            (JsonCategories ((λ c, (Category.id c, Category.name c)) <$> cs))
            sess st
        ∧ cs ≡ₚ categories (db st)
        ∧ Sorted (λ a b, String.le (Category.name a) (Category.name b)) cs.
Proof.
  exists (order_by_name (categories (db st))).
  destruct (order_by_name_sorted (categories (db st))) as [Hs Hp].
  by split_and!.
Qed.

(** X13: for a logged-in session the admin page shows every category, by
    ascending name, and every video, by descending id, and writes
    nothing. *)
Theorem admin_index_shows_everything (sess : session) (req : request)
    (st : state) :
  session_logged_in sess = true →
  ∃ cs vs, admin_index sess req st = mk_result (RenderAdmin cs vs) sess st
           ∧ cs ≡ₚ categories (db st)
           ∧ Sorted (λ a b, String.le (Category.name a) (Category.name b)) cs
           ∧ vs ≡ₚ videos (db st)
           ∧ Sorted id_desc vs.
Proof.
  intros Hin.
  exists (order_by_name (categories (db st))),
         (order_by_id_desc (videos (db st))).
  destruct (order_by_name_sorted (categories (db st))) as [Hs Hp].
  split_and!; [|done|done|apply merge_sort_Permutation|].
  - unfold admin_index. by rewrite login_required_in.
  - apply Sorted_merge_sort, _.
Qed.

Lemma admin_index_shows_everything_witness :
  session_logged_in Sample.admin = true
  ∧ ∃ cs vs, admin_index Sample.admin Sample.get Sample.three_videos
             = mk_result (RenderAdmin cs vs) Sample.admin Sample.three_videos
             ∧ vs ≡ₚ videos (db Sample.three_videos).
Proof.
  split; [reflexivity|].
  destruct (admin_index_shows_everything Sample.admin Sample.get
              Sample.three_videos eq_refl)
    as (cs & vs & Heq & _ & _ & Hvs & _).
  exists cs, vs. split; [exact Heq|exact Hvs].
Defined.


(** *** Upload, then read back *)






(** *** The name chosen for an upload *)

(** X17: the name chosen for an upload is never taken and never empty.  It
    is the sanitized name when that is free; otherwise it is the candidate
    with the smallest counter, counting from 1, that is free, so a gap left
    in the series is filled first. *)
Theorem resolved_name_is_first_free (up : gmap string string) (s : string) :
  let r := resolve_filename up s in
  r ≠ "" ∧ up !! r = None
  ∧ if path_exists up s
    then ∃ j, r = candidate (Py.rsplit1 s) (1 + N.of_nat j)
              ∧ ∀ i, (i < j)%nat →
                     path_exists up
                       (candidate (Py.rsplit1 s) (1 + N.of_nat i)) = true
    else r = s.
Proof.
  intros r. subst r.
  pose proof (resolve_filename_fresh up s) as [Hne Hnone]%path_exists_false.
  split_and!; [done..|].
  destruct (resolve_outcome up s) as (r & Hr & _ & Hshape).
  unfold resolve_filename. by rewrite (Hr (S (size up))) by lia.
Qed.

Example resolved_name_fills_gap :
  resolve_filename {[ "foo.mp4" := "a"; "foo_2.mp4" := "c" ]} "foo.mp4"
  = "foo_1.mp4".
Proof. vm_compute. done. Qed.

Lemma rsplit_dot_last (h t : string) :
  has_dot t = false → Py.rsplit_dot (h +:+ "." +:+ t) = Some (h, t).
Proof.
  intros Ht. induction h as [|a h IH].
  - rewrite string_app_nil, string_app_cons, string_app_nil. simpl.
    by rewrite rsplit_dot_no_dot.
  - rewrite string_app_cons. simpl. by rewrite IH.
Qed.

(** X18: for a name that ends in a dot and an extension, every candidate
    puts [_] and the counter before that last dot and keeps the extension;
    for a name that ends in a bare dot, the dot is dropped from the
    candidates. *)
Theorem candidate_keeps_extension (h t : string) (c : N) :
  has_dot t = false →
  candidate (Py.rsplit1 (h +:+ "." +:+ t)) c
  = if Py.truthy t
    then h +:+ "_" +:+ pretty c +:+ "." +:+ t
    else h +:+ "_" +:+ pretty c.
Proof.
  intros Ht. unfold Py.rsplit1. rewrite rsplit_dot_last by done.
  unfold candidate. simpl. done.
Qed.

Lemma candidate_keeps_extension_witness :
  has_dot "gz" = false
  ∧ candidate (Py.rsplit1 ("archive.tar" +:+ "." +:+ "gz")) 3
    = "archive.tar" +:+ "_" +:+ pretty 3%N +:+ "." +:+ "gz".
Proof.
  split; [reflexivity|].
  exact (candidate_keeps_extension "archive.tar" "gz" 3 eq_refl).
Defined.

(** *** The login page gives nothing away *)

(** X19: two failed logins get the same answer, whichever of the two
    fields was wrong, and neither changes the session or the state. *)
Theorem failed_logins_look_alike (env : environ) (sess : session)
    (req1 req2 : request) (st : state) :
  too_large req1 = false →
  too_large req2 = false →
  check_auth env (default "" (form req1 !! "username"))
    (default "" (form req1 !! "password")) = false →
  check_auth env (default "" (form req2 !! "username"))
    (default "" (form req2 !! "password")) = false →
  admin_login_post env sess req1 st = admin_login_post env sess req2 st
  ∧ r_session (admin_login_post env sess req1 st) = sess
  ∧ r_state (admin_login_post env sess req1 st) = st.
Proof.
  intros H1 H2 Hc1 Hc2. unfold admin_login_post.
  by rewrite H1, H2, Hc1, Hc2.
Qed.

Lemma failed_logins_look_alike_witness :
  let wrong_user := mk_request {[ "username" := "root"; "password" := "s3cret" ]}
                      ∅ 32 "https://example.com" in
  let wrong_pass := mk_request {[ "username" := "admin"; "password" := "guess" ]}
                      ∅ 32 "https://example.com" in
  too_large wrong_user = false
  ∧ too_large wrong_pass = false
  ∧ admin_login_post Sample.env Sample.anonymous wrong_user initial_state
    = admin_login_post Sample.env Sample.anonymous wrong_pass initial_state.
Proof.
  intros wrong_user wrong_pass.
  split; [reflexivity|]. split; [reflexivity|].
  exact (proj1 (failed_logins_look_alike Sample.env Sample.anonymous
                  wrong_user wrong_pass initial_state
                  eq_refl eq_refl eq_refl eq_refl)).
Defined.

(** *** The start button of the bot *)

Lemma string_app_nil_r (s : string) : s +:+ "" = s.
Proof.
  induction s as [|a s IH]; [done|]. rewrite string_app_cons. by rewrite IH.
Qed.

Lemma string_app_assoc (s t u : string) : (s +:+ t) +:+ u = s +:+ (t +:+ u).
Proof.
  induction s as [|a s IH]; [done|]. rewrite !string_app_cons. by rewrite IH.
Qed.

Lemma rev_app_spec (s acc : string) :
  String.rev_app s acc = String.rev s +:+ acc.
Proof.
  unfold String.rev. revert acc. induction s as [|a s IH]; intros acc; simpl.
  - done.
  - rewrite (IH (String a "")), (IH (String a acc)).
    by rewrite string_app_assoc.
Qed.

Lemma string_rev_cons (a : ascii) (s : string) :
  String.rev (String a s) = String.rev s +:+ String a "".
Proof. unfold String.rev at 1. simpl. apply rev_app_spec. Qed.

Lemma string_rev_app (s t : string) :
  String.rev (s +:+ t) = String.rev t +:+ String.rev s.
Proof.
  induction s as [|a s IH].
  - by rewrite string_app_nil, string_app_nil_r.
  - rewrite string_app_cons, !string_rev_cons, IH.
    by rewrite string_app_assoc.
Qed.

Lemma string_rev_involutive (s : string) : String.rev (String.rev s) = s.
Proof.
  induction s as [|a s IH]; [done|].
  rewrite string_rev_cons, string_rev_app, IH. done.
Qed.

Lemma slashes_snoc (n : nat) : slashes n +:+ "/" = String "/" (slashes n).
Proof.
  induction n as [|n IH]; [done|]. simpl.
  rewrite string_app_cons. by rewrite IH.
Qed.

Lemma string_rev_slashes (n : nat) : String.rev (slashes n) = slashes n.
Proof.
  induction n as [|n IH]; [done|]. simpl.
  rewrite string_rev_cons, IH. apply slashes_snoc.
Qed.

Lemma lstrip_slash_split (s : string) :
  ∃ n, s = slashes n +:+ Bot.lstrip_slash s.
Proof.
  induction s as [|a s [n IH]]; [by exists 0%nat|]. simpl.
  destruct (Ascii.eqb a "/") eqn:Ea.
  - apply Ascii.eqb_eq in Ea as ->. exists (S n). simpl.
    rewrite string_app_cons. by rewrite <-IH.
  - by exists 0%nat.
Qed.

Lemma lstrip_slash_head (s : string) (a : ascii) (s' : string) :
  Bot.lstrip_slash s = String a s' → a ≠ "/"%char.
Proof.
  induction s as [|b s IH]; simpl; [done|].
  destruct (Ascii.eqb b "/") eqn:Eb; [done|].
  intros [= -> ->]. by apply Ascii.eqb_neq.
Qed.

Lemma last_char_snoc (s : string) (a : ascii) :
  last_char (s +:+ String a "") = Some a.
Proof.
  induction s as [|b s IH]; [done|].
  rewrite string_app_cons. simpl. rewrite IH.
  destruct s; [done|]. by rewrite string_app_cons.
Qed.

(** X20: on [/start] the bot sends exactly one message, to the chat the
    command came from, with one button.  The button opens the configured
    URL with all trailing slashes removed, followed by [/mini-app]: the
    part before [/mini-app] never ends in a slash, and configuring the URL
    with one more trailing slash gives the same message.  The server state
    is not touched. *)
Theorem start_button_opens_mini_app (url : string) (m : Bot.Message)
    (w : Bot.world) :
  ∃ base n,
    url = base +:+ slashes n
    ∧ last_char base ≠ Some "/"%char
    ∧ Bot.handle_start url m w
      = {| Bot.server := Bot.server w;
           Bot.sent :=
             Bot.sent w ++
             [ {| Bot.to_chat := Bot.chat_id m;
                  Bot.body :=
                    "Привет! Нажмите кнопку ниже, чтобы открыть каталог контента.";
                  Bot.reply_markup :=
                    [ [ {| Bot.button_text := "Открыть каталог";
                           Bot.web_app_url := base +:+ "/mini-app" |} ] ] |} ] |}
    ∧ Bot.handle_start (url +:+ "/") m w = Bot.handle_start url m w.
Proof.
  exists (Bot.rstrip_slash url).
  destruct (lstrip_slash_split (String.rev url)) as [n Hn].
  exists n. split_and!.
  - unfold Bot.rstrip_slash.
    rewrite <-(string_rev_slashes n), <-string_rev_app, <-Hn.
    by rewrite string_rev_involutive.
  - unfold Bot.rstrip_slash.
    destruct (Bot.lstrip_slash (String.rev url)) as [|a s] eqn:E; [done|].
    apply lstrip_slash_head in E. rewrite string_rev_cons, last_char_snoc.
    congruence.
  - done.
  - unfold Bot.handle_start, Bot.rstrip_slash.
    rewrite string_rev_app. done.
Qed.

(** *** The session cookie and the category listing *)

(** X21: the session cookie changes only through a successful login or
    through logout; every other request, the admin forms included, hands
    the session back as it came. *)
Theorem only_login_and_logout_change_session
    (secure_filename : string → string) (py_int : string → option Z)
    (url_quote : string → string) (env : environ) (r : route)
    (sess : session) (req : request) (st : state) :
  r_session (dispatch secure_filename py_int url_quote env r sess req st)
  ≠ sess →
  (r = POST_admin_login
   ∧ check_auth env (default "" (form req !! "username"))
       (default "" (form req !! "password")) = true)
  ∨ r = GET_admin_logout.
Proof.
  destruct r; simpl;
    unfold admin_login_get, admin_login_post, admin_logout, admin_index,
      admin_add_category, admin_add_video, uploaded_file, api_categories,
      api_videos_by_category, api_video_details, mini_app, index,
      login_required;
    repeat case_match; simpl; intros Hne; try done.
  - by left.
  - by right.
Qed.

Lemma only_login_and_logout_change_session_witness :
  r_session (Sample.serve GET_admin_logout Sample.admin Sample.get
               initial_state)
  ≠ Sample.admin
  ∧ ((GET_admin_logout = POST_admin_login
      ∧ check_auth Sample.env (default "" (form Sample.get !! "username"))
          (default "" (form Sample.get !! "password")) = true)
     ∨ GET_admin_logout = GET_admin_logout).
Proof.
  assert (r_session (Sample.serve GET_admin_logout Sample.admin Sample.get
                       initial_state)
          ≠ Sample.admin) as Hne.
  { intros H. apply (f_equal (λ s : session, s !! "logged_in")) in H.
    vm_compute in H. discriminate H. }
  split; [exact Hne|].
  exact (only_login_and_logout_change_session Lib.secure_filename Lib.int
           Lib.url_quote Sample.env GET_admin_logout Sample.admin Sample.get
           initial_state Hne).
Defined.

(** X22: after a logged-in [admin_add_category] with a name that is not
    blank, a category with the stripped name is stored, whether it was
    there before or not, and [api_categories] lists it. *)
Theorem added_category_is_listed (sess anyone : session) (req get : request)
    (st : state) :
  session_logged_in sess = true →
  too_large req = false →
  Py.strip (default "" (form req !! "name")) ≠ "" →
  let name := Py.strip (default "" (form req !! "name")) in
  let st' := r_state (admin_add_category sess req st) in
  ∃ c data,
    c ∈ categories (db st') ∧ Category.name c = name
    ∧ r_response (api_categories anyone get st') = JsonCategories data
    ∧ (Category.id c, name) ∈ data.
Proof.
  intros Hin Hsize Hname name st'.
  assert (∃ c, c ∈ categories (db st') ∧ Category.name c = name)
    as (c & Hc & Hcn).
  { subst st'. unfold admin_add_category.
    rewrite login_required_in by done. rewrite Hsize. fold name.
    apply truthy_true in Hname. fold name in Hname. rewrite Hname. simpl.
    destruct (category_by_name (db st) name) as [c|] eqn:E; simpl.
    - apply find_decide_Some in E as [? ?]. by exists c.
    - eexists. split; [apply elem_of_app; right; by left|done]. }
  exists c. eexists. split_and!; [done|done|done|].
  rewrite <-Hcn. apply (list_elem_of_fmap_2 (λ c, (Category.id c, Category.name c))).
  destruct (order_by_name_sorted (categories (db st'))) as [_ Hp].
  by rewrite Hp.
Qed.

Lemma added_category_is_listed_witness :
  session_logged_in Sample.admin = true
  ∧ too_large (Sample.category_form "  Finance ") = false
  ∧ Py.strip (default "" (form (Sample.category_form "  Finance ") !! "name"))
    ≠ ""
  ∧ ∃ c data,
      Category.name c = "Finance"
      ∧ r_response (api_categories Sample.anonymous Sample.get
                      (r_state (admin_add_category Sample.admin
                                  (Sample.category_form "  Finance ")
                                  initial_state)))
        = JsonCategories data
      ∧ (Category.id c, "Finance") ∈ data.
Proof.
  assert (Py.strip (default "" (form (Sample.category_form "  Finance ")
                                  !! "name")) ≠ "") as Hne
    by (vm_compute; discriminate).
  split; [reflexivity|]. split; [reflexivity|]. split; [exact Hne|].
  destruct (added_category_is_listed Sample.admin Sample.anonymous
              (Sample.category_form "  Finance ") Sample.get initial_state
              eq_refl eq_refl Hne)
    as (c & data & _ & Hn & Hresp & Hdata).
  exists c, data. split; [exact Hn|]. split; [exact Hresp|exact Hdata].
Defined.
